(** * openag_brain: topic_filter.py

    A shallow embedding of [software_modules/topic_filter.py]: the EWMA
    filter object, the per-topic relay built by [filter_topic] and the loop
    [filter_all_variable_topics], together with the part of [rospy] the
    module talks to (log, publishers, subscribers, published messages).

    Numbers are kept abstract behind the class [Number], so that the same
    definitions are read over exact arithmetic (the reals) and over IEEE
    binary64, the representation of a Python [float]. *)

From Stdlib Require Import Reals Lra Floats.
From stdpp Require Import base option list strings.

Set Default Proof Using "Type".

(** ** Numbers *)

(** The arithmetic the module uses: [*], [+], [-], and the two literals
    that occur in it, [1] and [0.3]. *)
Class Number (num : Type) := {
  nadd : num -> num -> num;
  nsub : num -> num -> num;
  nmul : num -> num -> num;
  lit_1 : num;
  lit_0_3 : num
}.

(** Exact arithmetic. *)
#[export] Instance Number_R : Number R := {|
  nadd := Rplus;
  nsub := Rminus;
  nmul := Rmult;
  lit_1 := 1%R;
  lit_0_3 := (3 / 10)%R
|}.

(** IEEE binary64, round to nearest even: a Python [float].  The literal
    is the double nearest to 0.3, as Python reads it. *)
#[export] Instance Number_float : Number float := {|
  nadd := PrimFloat.add;
  nsub := PrimFloat.sub;
  nmul := PrimFloat.mul;
  lit_1 := 0x1p+0%float;
  lit_0_3 := 0x1.3333333333333p-2%float
|}.

(** ** The EWMA object *)

Section Filter.
Context {num : Type} `{Number num}.

(** [class EWMA]: the attributes [a] and [average]; [average] is [None]
    or a number. *)
Record EWMA := mkEWMA {
  a : num;
  average : option num
}.

(** [EWMA.__init__(self, a)]. *)
Definition EWMA_init (a0 : num) : EWMA :=
  {| a := a0; average := None |}.

(** [EWMA.__call__(self, sample)]: the object after the call, and the
    value the call returns.  Both exits hand back Python's [None]: the
    first branch ends in a bare [return], the second runs off the end of
    the body. *)
Definition EWMA_call (self : EWMA) (sample : num) : EWMA * option num :=
  match average self with
  | None =>
      ({| a := a self; average := Some sample |}, None)
  | Some avg =>
      ({| a := a self;
          average := Some (nadd (nmul (a self) sample)
                                (nmul (nsub lit_1 (a self)) avg)) |},
       None)
  end.

(** One filter instance called on the samples in order. *)
Definition feed (self : EWMA) (samples : list num) : EWMA :=
  fold_left (fun f x => fst (EWMA_call f x)) samples self.

(** The recurrence as the specification words it, by index:
    [a_1 = x_1] and [a_i = alpha * x_i + (1 - alpha) * a_(i-1)].
    Indices count from 0 here, so [spec_average alpha x i] is [a_(i+1)]
    for the samples [x 0, x 1, ...]. *)
Fixpoint spec_average (alpha : num) (x : nat -> num) (i : nat) : num :=
  match i with
  | O => x O
  | S j => nadd (nmul alpha (x (S j)))
                (nmul (nsub lit_1 alpha) (spec_average alpha x j))
  end.

End Filter.

Arguments EWMA num : clear implicits.
Arguments mkEWMA {num} _ _.

(** ** The part of rospy the module talks to *)

(** Message classes that can be passed as [topic_type]; the module only
    ever passes [std_msgs.msg.Float64]. *)
Inductive msg_class := Float64.

(** What the nested function [callback] of [filter_topic] closes over:
    the filter object [f], the class [topic_type] and the publisher [pub].
    Objects are referred to by their position in the world below. *)
Record callback_env := mkEnv {
  env_f : nat;
  env_topic_type : msg_class;
  env_pub : nat
}.

(** [rospy.Publisher(topic, data_class, queue_size=...)]. *)
Record Publisher := mkPublisher {
  pub_topic : string;
  pub_class : msg_class;
  queue_size : nat
}.

(** [rospy.Subscriber(topic, data_class, callback)]. *)
Record Subscriber := mkSubscriber {
  sub_topic : string;
  sub_class : msg_class;
  sub_callback : callback_env
}.

Section Relay.
Context {num : Type} `{Number num}.

(** A message instance: its class and its single field [data]. *)
Record Message := mkMessage {
  msg_type : msg_class;
  data : num
}.

(** Everything the module can observe or change: the lines given to
    [rospy.loginfo], the EWMA objects alive, the publishers and
    subscribers registered with the node, and the messages handed to
    [publish], each with the topic it went out on. *)
Record World := mkWorld {
  log : list string;
  heap : list (EWMA num);
  publishers : list Publisher;
  subscribers : list Subscriber;
  published : list (string * Message)
}.

(** [rospy.init_node]: nothing logged, created or published yet. *)
Definition init_node : World :=
  {| log := []; heap := []; publishers := []; subscribers := [];
     published := [] |}.

(** Statements run against the world and may raise. *)
Definition M (A : Type) : Type := World -> option (A * World).

Definition ret {A} (x : A) : M A := fun w => Some (x, w).

Definition raise {A} : M A := fun _ => None.

Definition bind {A B} (c : M A) (k : A -> M B) : M B :=
  fun w => match c w with
           | Some (x, w') => k x w'
           | None => None
           end.

Notation "x <~ c ;; k" := (bind c (fun x => k))
  (at level 100, c at next level, right associativity).
Notation "c ;; k" := (bind c (fun _ => k))
  (at level 100, right associativity).

(** [rospy.loginfo(line)]. *)
Definition loginfo (line : string) : M unit := fun w =>
  Some (tt, {| log := log w ++ [line]; heap := heap w;
               publishers := publishers w; subscribers := subscribers w;
               published := published w |}).

(** [rospy.Publisher(topic, cls, queue_size=n)]: registers the publisher
    and hands back the new object. *)
Definition new_Publisher (topic : string) (cls : msg_class) (n : nat)
  : M nat := fun w =>
  Some (length (publishers w),
        {| log := log w; heap := heap w;
           publishers := publishers w ++ [mkPublisher topic cls n];
           subscribers := subscribers w; published := published w |}).

(** [EWMA(a0)]: a new object, initialised by [EWMA_init]. *)
Definition new_EWMA (a0 : num) : M nat := fun w =>
  Some (length (heap w),
        {| log := log w; heap := heap w ++ [EWMA_init a0];
           publishers := publishers w; subscribers := subscribers w;
           published := published w |}).

(** [rospy.Subscriber(topic, cls, callback)]. *)
Definition new_Subscriber (topic : string) (cls : msg_class)
    (cb : callback_env) : M nat := fun w =>
  Some (length (subscribers w),
        {| log := log w; heap := heap w; publishers := publishers w;
           subscribers := subscribers w ++ [mkSubscriber topic cls cb];
           published := published w |}).

(** [f(sample)] on the object [f]: [EWMA_call] on its current state,
    the object updated in place. *)
Definition call_EWMA (f : nat) (sample : num) : M (option num) := fun w =>
  match heap w !! f with
  | Some self =>
      let '(self', r) := EWMA_call self sample in
      Some (r, {| log := log w; heap := <[f := self']> (heap w);
                  publishers := publishers w; subscribers := subscribers w;
                  published := published w |})
  | None => None
  end.

(** The attribute read [f.average]. *)
Definition get_average (f : nat) : M (option num) := fun w =>
  match heap w !! f with
  | Some self => Some (average self, w)
  | None => None
  end.

(** [topic_type(v)] for a message that is then published.  The field of
    a [Float64] is a float: a message built around [None] cannot be
    serialised, and publishing it raises. *)
Definition wrap (topic_type : msg_class) (v : option num) : M Message :=
  match v with
  | Some x => ret {| msg_type := topic_type; data := x |}
  | None => raise
  end.

(** [pub.publish(msg)]. *)
Definition publish (pub : nat) (msg : Message) : M unit := fun w =>
  match publishers w !! pub with
  | Some p =>
      Some (tt, {| log := log w; heap := heap w;
                   publishers := publishers w; subscribers := subscribers w;
                   published := published w ++ [(pub_topic p, msg)] |})
  | None => None
  end.

(** ** topic_filter.py *)

(** The nested [callback(src_item)] of [filter_topic], in the
    environment it closed over. *)
Definition callback (env : callback_env) (src_item : Message) : M unit :=
  call_EWMA (env_f env) (data src_item) ;;
  avg <~ get_average (env_f env) ;;
  dest_item <~ wrap (env_topic_type env) avg ;;
  publish (env_pub env) dest_item.

(** [filter_topic(src_topic, dest_topic, topic_type)], returning the
    pair [sub, pub]. *)
Definition filter_topic (src_topic dest_topic : string)
    (topic_type : msg_class) : M (nat * nat) :=
  loginfo ("Filtering topic " +:+ src_topic +:+ " to topic " +:+ dest_topic) ;;
  pub <~ new_Publisher dest_topic topic_type 10 ;;
  f <~ new_EWMA lit_0_3 ;;
  sub <~ new_Subscriber src_topic topic_type (mkEnv f topic_type pub) ;;
  ret (sub, pub).

(** [filter_all_variable_topics(variables)], for variables given by their
    identifiers, so that ["{}/raw".format(env_var)] is the identifier
    followed by ["/raw"].  The pair each [filter_topic] call returns is
    dropped, and the function has no [return] statement: the caller gets
    Python's [None], never a collection [Some bs] of [sub, pub] pairs. *)
Fixpoint filter_all_variable_topics (variables : list string)
  : M (option (list (nat * nat))) :=
  match variables with
  | [] => ret None
  | env_var :: rest =>
      let src_topic := env_var +:+ "/raw" in
      let dest_topic := env_var +:+ "/measured" in
      filter_topic src_topic dest_topic Float64 ;;
      filter_all_variable_topics rest
  end.

(** The node hands a message received for subscriber [sub] to its
    callback. *)
Definition deliver (sub : nat) (src_item : Message) : M unit := fun w =>
  match subscribers w !! sub with
  | Some s => callback (sub_callback s) src_item w
  | None => None
  end.

(** A run of the node: deliveries, each to one subscriber, in the order
    the node makes them. *)
Fixpoint deliver_all (events : list (nat * num)) : M unit :=
  match events with
  | [] => ret tt
  | (sub, x) :: rest =>
      deliver sub {| msg_type := Float64; data := x |} ;;
      deliver_all rest
  end.

(** The module run as a script on a fresh node: the relays are set up
    for [variables], then [rospy.spin()] lets the node make its
    deliveries. *)
Definition main (variables : list string) (events : list (nat * num))
  : M unit :=
  filter_all_variable_topics variables ;;
  deliver_all events.

(** *** Vocabulary for the statements below *)

(** The samples of a run that went to subscriber [sub]. *)
Definition samples_of (sub : nat) (events : list (nat * num)) : list num :=
  snd <$> filter (fun e => e.1 = sub) events.

(** The line [filter_topic] logs for a variable. *)
Definition log_line (v : string) : string :=
  "Filtering topic " +:+ (v +:+ "/raw") +:+ " to topic " +:+ (v +:+ "/measured").

(** One publisher per variable, on [v/measured]. *)
Definition relay_publishers (vs : list string) : list Publisher :=
  (fun v => mkPublisher (v +:+ "/measured") Float64 10) <$> vs.

(** One subscriber per variable, on [v/raw]; the callback of the [i]-th
    refers to the [i]-th filter and publisher created, counted from the
    [nf] filters and [np] publishers that were there before. *)
Definition relay_subscribers (nf np : nat) (vs : list string)
  : list Subscriber :=
  imap (fun i v => mkSubscriber (v +:+ "/raw") Float64
                     (mkEnv (nf + i) Float64 (np + i))) vs.

(** The world [w] extended by the relays for [vs]. *)
Definition with_relays (vs : list string) (w : World) : World :=
  {| log := log w ++ (log_line <$> vs);
     heap := heap w ++ replicate (length vs) (EWMA_init lit_0_3);
     publishers := publishers w ++ relay_publishers vs;
     subscribers :=
       subscribers w ++
       relay_subscribers (length (heap w)) (length (publishers w)) vs;
     published := published w |}.

(** A fresh node with the relays for [vs], whose filters are in the
    states [hp] and which has published [out]. *)
Definition relay_state (vs : list string) (hp : list (EWMA num))
    (out : list (string * Message)) : World :=
  {| log := log_line <$> vs;
     heap := hp;
     publishers := relay_publishers vs;
     subscribers := relay_subscribers 0 0 vs;
     published := out |}.

(** The filters of [n] relays after a run: each has seen its own samples
    and nothing else. *)
Definition relay_filters (n : nat) (events : list (nat * num))
  : list (EWMA num) :=
  (fun k => feed (EWMA_init lit_0_3) (samples_of k events)) <$> seq 0 n.

End Relay.

Arguments Message num : clear implicits.
Arguments World num : clear implicits.
Arguments M num A : clear implicits.

(** ** Vocabulary for the further properties *)

(** The share of the average that comes from the samples after the first,
    as the update distributes it: a sample followed by [k] later ones
    carries the weight [alpha * (1 - alpha) ^ k]. *)
Fixpoint weighted_tail (alpha : R) (xs : list R) : R :=
  match xs with
  | [] => 0
  | x :: rest =>
      alpha * (1 - alpha) ^ length rest * x + weighted_tail alpha rest
  end%R.

(** *** The module run as a script *)

Section Script.
Context {num : Type} `{Number num}.

(** What the module imports from [openag.var_types] and does not define
    itself: the class [EnvVar] with its attribute [groups], the text
    [format] writes for a variable, the constant [GROUP_ENVIRONMENT], and
    [EnvVar.items.values()], taken as the list [items]. *)
Context {EnvVar group : Type} `{EqDecision group}.
Variable groups : EnvVar -> list group.
Variable str : EnvVar -> string.
Variable GROUP_ENVIRONMENT : group.

(** [ENVIRONMENT_VARIABLES]: the variables of the catalogue that carry
    the environment group, in the order of the catalogue. *)
Definition ENVIRONMENT_VARIABLES (items : list EnvVar) : list EnvVar :=
  filter (fun var => GROUP_ENVIRONMENT ∈ groups var) items.

(** The body under [if __name__ == '__main__']: [rospy.init_node], the
    relays for [ENVIRONMENT_VARIABLES], then [rospy.spin()], during which
    the node makes its deliveries. *)
Definition script (items : list EnvVar) (events : list (nat * num))
  : option (unit * World num) :=
  main (str <$> ENVIRONMENT_VARIABLES items) events init_node.

End Script.

(** * Properties *)

(** ** The filter object *)

Section FilterFacts.
Context {num : Type} `{Number num}.
Implicit Types (self : EWMA num) (x sample alpha : num)
               (xs samples : list num).

Lemma EWMA_call_returns self sample : snd (EWMA_call self sample) = None.
Proof. unfold EWMA_call. destruct (average self); reflexivity. Qed.

Lemma EWMA_call_a self sample : a (fst (EWMA_call self sample)) = a self.
Proof. unfold EWMA_call. destruct (average self); reflexivity. Qed.

Lemma EWMA_call_average self sample :
  average (fst (EWMA_call self sample)) =
  Some match average self with
       | None => sample
       | Some avg =>
           nadd (nmul (a self) sample) (nmul (nsub lit_1 (a self)) avg)
       end.
Proof. unfold EWMA_call. destruct (average self); reflexivity. Qed.

Lemma feed_cons self x xs :
  feed self (x :: xs) = feed (fst (EWMA_call self x)) xs.
Proof. reflexivity. Qed.

Lemma feed_snoc self xs x :
  feed self (xs ++ [x]) = fst (EWMA_call (feed self xs) x).
Proof. unfold feed. rewrite fold_left_app. reflexivity. Qed.

Lemma feed_a self xs : a (feed self xs) = a self.
Proof.
  induction xs as [|x xs IH] using rev_ind; [reflexivity|].
  rewrite feed_snoc, EWMA_call_a. exact IH.
Qed.

Lemma feed_average_defined self x xs :
  is_Some (average (feed self (xs ++ [x]))).
Proof. rewrite feed_snoc, EWMA_call_average. eexists; reflexivity. Qed.

Lemma feed_average_None self xs :
  average (feed self xs) = None <-> average self = None /\ xs = [].
Proof.
  split.
  - destruct xs as [|x xs _] using rev_ind; [intros Hn; split; auto|].
    intros Hn. destruct (feed_average_defined self x xs) as [v Hv].
    congruence.
  - intros [Hn ->]. exact Hn.
Qed.

(** [spec_average] at index [i] reads the samples up to [i] only. *)
Lemma spec_average_ext alpha (x y : nat -> num) i :
  (forall j, j <= i -> x j = y j) ->
  spec_average alpha x i = spec_average alpha y i.
Proof.
  induction i as [|i IH]; intros Hxy; simpl.
  - apply Hxy. lia.
  - rewrite (Hxy (S i)) by lia. rewrite IH; [reflexivity|].
    intros j Hj. apply Hxy. lia.
Qed.

(** The state-passing filter computes the indexed recurrence. *)
Lemma feed_spec_average alpha d x1 xs :
  average (feed (EWMA_init alpha) (x1 :: xs)) =
  Some (spec_average alpha (fun i => nth i (x1 :: xs) d) (length xs)).
Proof.
  induction xs as [|z xs IH] using rev_ind; [reflexivity|].
  rewrite app_comm_cons, feed_snoc, EWMA_call_average, feed_a, IH.
  rewrite length_app, Nat.add_1_r. simpl a. cbn [spec_average].
  f_equal. f_equal.
  - f_equal. change (S (length xs)) with (length (x1 :: xs)).
    rewrite nth_middle. reflexivity.
  - f_equal. apply spec_average_ext. intros j Hj.
    symmetry. apply app_nth1. simpl. lia.
Qed.

End FilterFacts.

(** ** The relays *)

Section RelayFacts.
Context {num : Type} `{Number num}.
Implicit Types (w : World num) (vs : list string)
               (events : list (nat * num)) (hp : list (EWMA num)).

Lemma filter_topic_run src dest ty w :
  filter_topic src dest ty w =
  Some ((length (subscribers w), length (publishers w)),
        {| log := log w ++
                  ["Filtering topic " +:+ src +:+ " to topic " +:+ dest];
           heap := heap w ++ [EWMA_init lit_0_3];
           publishers := publishers w ++ [mkPublisher dest ty 10];
           subscribers :=
             subscribers w ++
             [mkSubscriber src ty
                (mkEnv (length (heap w)) ty (length (publishers w)))];
           published := published w |}).
Proof. reflexivity. Qed.

Lemma relay_subscribers_cons nf np v vs :
  relay_subscribers nf np (v :: vs) =
  mkSubscriber (v +:+ "/raw") Float64 (mkEnv nf Float64 np)
  :: relay_subscribers (S nf) (S np) vs.
Proof.
  unfold relay_subscribers. cbn [imap]. rewrite !Nat.add_0_r. f_equal.
  apply imap_ext. intros i x _. simpl. repeat f_equal; lia.
Qed.

(** What the loop does to the world, and what it returns. *)
Lemma filter_all_variable_topics_run vs w :
  filter_all_variable_topics vs w = Some (None, with_relays vs w).
Proof.
  revert w. induction vs as [|v vs IH]; intros w.
  - unfold with_relays, relay_subscribers, relay_publishers. simpl.
    rewrite !app_nil_r. destruct w; reflexivity.
  - cbn [filter_all_variable_topics]. unfold bind at 1.
    rewrite filter_topic_run, IH. unfold with_relays.
    cbn [log heap publishers subscribers published].
    rewrite relay_subscribers_cons, !length_app, !Nat.add_1_r.
    rewrite <- !app_assoc. reflexivity.
Qed.

Lemma with_relays_init vs :
  with_relays vs init_node =
  relay_state vs (replicate (length vs) (EWMA_init lit_0_3)) [].
Proof. reflexivity. Qed.

Lemma relay_subscribers_lookup nf np vs i v :
  vs !! i = Some v ->
  relay_subscribers nf np vs !! i =
  Some (mkSubscriber (v +:+ "/raw") Float64 (mkEnv (nf + i) Float64 (np + i))).
Proof.
  intros Hv. unfold relay_subscribers. rewrite list_lookup_imap, Hv.
  reflexivity.
Qed.

Lemma relay_publishers_lookup vs i v :
  vs !! i = Some v ->
  relay_publishers vs !! i = Some (mkPublisher (v +:+ "/measured") Float64 10).
Proof.
  intros Hv. unfold relay_publishers. rewrite list_lookup_fmap, Hv.
  reflexivity.
Qed.

(** One delivery to the [i]-th relay. *)
Lemma deliver_relay_state vs hp out i v self x :
  vs !! i = Some v ->
  hp !! i = Some self ->
  deliver i (mkMessage Float64 x) (relay_state vs hp out) =
  Some (tt,
        relay_state vs (<[i := fst (EWMA_call self x)]> hp)
          (out ++ [(v +:+ "/measured",
                    mkMessage Float64
                      match average self with
                      | None => x
                      | Some avg =>
                          nadd (nmul (a self) x)
                               (nmul (nsub lit_1 (a self)) avg)
                      end)])).
Proof.
  intros Hv Hself. unfold deliver, relay_state. cbn [subscribers].
  rewrite (relay_subscribers_lookup 0 0 vs i v Hv). cbn [sub_callback].
  unfold callback, bind, call_EWMA, get_average, wrap, publish.
  cbn [env_f env_pub env_topic_type heap Nat.add data].
  rewrite Hself. destruct (EWMA_call self x) as [self' r] eqn:Hcall.
  cbn [heap]. rewrite list_lookup_insert_eq by (eapply lookup_lt_Some; eauto).
  assert (Havg := EWMA_call_average self x). rewrite Hcall in Havg.
  cbn [fst] in Havg. rewrite Havg. unfold ret. cbn [publishers].
  rewrite (relay_publishers_lookup vs i v Hv). reflexivity.
Qed.

Lemma samples_of_cons k i x events :
  samples_of k ((i, x) :: events) =
  (if decide (i = k) then x :: samples_of k events else samples_of k events).
Proof.
  unfold samples_of. rewrite filter_cons. cbn [fst].
  destruct (decide (i = k)); reflexivity.
Qed.

Lemma samples_of_snoc k i x events :
  samples_of k (events ++ [(i, x)]) =
  (if decide (i = k) then samples_of k events ++ [x]
   else samples_of k events).
Proof.
  unfold samples_of. rewrite filter_app, fmap_app, filter_cons. cbn [fst].
  destruct (decide (i = k)); [reflexivity|]. rewrite filter_nil.
  apply app_nil_r.
Qed.

Lemma deliver_all_app ev1 ev2 w :
  deliver_all (ev1 ++ ev2) w =
  match deliver_all ev1 w with
  | Some (_, w') => deliver_all ev2 w'
  | None => None
  end.
Proof.
  revert w. induction ev1 as [|[i x] ev1 IH]; intros w; [reflexivity|].
  cbn [app deliver_all]. unfold bind.
  destruct (deliver i _ w) as [[[] w']|]; [apply IH | reflexivity].
Qed.

(** A run on relays in any filter states: every filter is fed its own
    samples, in order, whatever else is delivered in between. *)
Lemma deliver_all_relay_state vs events : forall hp out,
  length hp = length vs ->
  Forall (fun e => e.1 < length vs) events ->
  exists more,
    length more = length events /\
    deliver_all events (relay_state vs hp out) =
    Some (tt, relay_state vs
                (imap (fun k f => feed f (samples_of k events)) hp)
                (out ++ more)).
Proof.
  induction events as [|[i x] events IH]; intros hp out Hlen Hin.
  - exists []. split; [reflexivity|]. rewrite app_nil_r. cbn.
    unfold ret. do 3 f_equal. apply list_eq. intros k.
    rewrite list_lookup_imap. destruct (hp !! k); reflexivity.
  - apply Forall_cons in Hin as [Hi Hin]. cbn [fst] in Hi.
    destruct (lookup_lt_is_Some_2 vs i Hi) as [v Hv].
    destruct (lookup_lt_is_Some_2 hp i) as [self Hself]; [lia|].
    cbn [deliver_all]. unfold bind.
    rewrite (deliver_relay_state vs hp out i v self x Hv Hself).
    destruct (IH (<[i := fst (EWMA_call self x)]> hp)
                 (out ++ [(v +:+ "/measured",
                    mkMessage Float64
                      match average self with
                      | None => x
                      | Some avg =>
                          nadd (nmul (a self) x)
                               (nmul (nsub lit_1 (a self)) avg)
                      end)]))
      as (more & Hmore & Hrun); [by rewrite length_insert | done |].
    eexists (_ :: more). split; [simpl; by rewrite Hmore|].
    rewrite Hrun, <- app_assoc. cbn [app]. do 3 f_equal.
    apply list_eq. intros k. rewrite !list_lookup_imap.
    destruct (decide (i = k)) as [->|Hne].
    + rewrite list_lookup_insert_eq by (eapply lookup_lt_Some; eauto).
      rewrite Hself, samples_of_cons, decide_True by done. reflexivity.
    + rewrite list_lookup_insert_ne by done.
      rewrite samples_of_cons, decide_False by done. reflexivity.
Qed.

Lemma imap_replicate_feed n events :
  imap (fun k f => feed f (samples_of k events))
       (replicate n (EWMA_init lit_0_3)) =
  relay_filters n events.
Proof.
  apply list_eq. intros k. unfold relay_filters.
  rewrite list_lookup_imap, list_lookup_fmap.
  destruct (decide (k < n)) as [Hk|Hk].
  - rewrite lookup_replicate_2, lookup_seq_lt by done. reflexivity.
  - rewrite (proj1 (lookup_replicate_None n _ k)), lookup_seq_ge by lia.
    reflexivity.
Qed.

(** The script: set up, then a run. *)
Lemma main_run vs events :
  Forall (fun e => e.1 < length vs) events ->
  exists out,
    length out = length events /\
    main vs events init_node =
    Some (tt, relay_state vs (relay_filters (length vs) events) out).
Proof.
  intros Hin. unfold main, bind.
  rewrite filter_all_variable_topics_run, with_relays_init.
  destruct (deliver_all_relay_state vs events
              (replicate (length vs) (EWMA_init lit_0_3)) [])
    as (more & Hmore & Hrun); [apply length_replicate | done |].
  exists more. split; [done|].
  rewrite Hrun, imap_replicate_feed. reflexivity.
Qed.

Lemma main_snoc vs events i x :
  main vs (events ++ [(i, x)]) init_node =
  match main vs events init_node with
  | Some (_, w) => deliver i (mkMessage Float64 x) w
  | None => None
  end.
Proof.
  unfold main, bind. rewrite filter_all_variable_topics_run.
  rewrite deliver_all_app.
  destruct (deliver_all events _) as [[[] w]|]; [|reflexivity].
  cbn [deliver_all]. unfold bind.
  destruct (deliver i _ w) as [[[] w']|]; reflexivity.
Qed.

Lemma relay_filters_lookup n events k :
  k < n ->
  relay_filters n events !! k =
  Some (feed (EWMA_init lit_0_3) (samples_of k events)).
Proof.
  intros Hk. unfold relay_filters.
  rewrite list_lookup_fmap, lookup_seq_lt by done. reflexivity.
Qed.

End RelayFacts.

(** * The claims *)

(** ** The filter *)

(** C1.  The documented return value is not delivered: every call of
    [EWMA.__call__], the first one and all later ones, hands back [None],
    while the average it computed is stored in the object.  At the input
    [EWMA(0.3)(10.0)] the call returns [None], not [10.0]. *)
Theorem EWMA_call_returns_None_stores_average :
  forall {num : Type} `{Number num} (self : EWMA num) (sample : num),
    snd (EWMA_call self sample) = None /\
    is_Some (average (fst (EWMA_call self sample))) /\
    EWMA_call (EWMA_init (lit_0_3 : R)) 10%R =
      ({| a := lit_0_3; average := Some 10%R |}, None).
Proof.
  intros num N self sample. split; [apply EWMA_call_returns|]. split.
  - rewrite EWMA_call_average. eexists; reflexivity.
  - reflexivity.
Qed.

(** C3.  Recurrence property: after the samples [x1 .. xn] were fed in
    order to one fresh filter, its stored average is [a_n], where
    [a_1 = x1] and [a_i = alpha * x_i + (1 - alpha) * a_(i-1)].  It holds
    for every [alpha], so in particular for [alpha] in (0,1], and in every
    arithmetic, so in particular over the reals. *)
Theorem feed_computes_recurrence :
  forall {num : Type} `{Number num} (alpha d x1 : num) (xs : list num),
    average (feed (EWMA_init alpha) (x1 :: xs)) =
    Some (spec_average alpha (fun i => nth i (x1 :: xs) d) (length xs)).
Proof. intros. apply feed_spec_average. Qed.

(** C6.  The stored average of a filter is [None] exactly as long as no
    sample was processed; from the first sample on it holds a number. *)
Theorem average_None_exactly_before_first_sample :
  forall {num : Type} `{Number num} (a0 : num),
    (forall samples : list num,
        average (feed (EWMA_init a0) samples) = None <-> samples = []) /\
    (forall (x : num) (xs : list num),
        is_Some (average (feed (EWMA_init a0) (x :: xs)))).
Proof.
  intros num N a0. split.
  - intros samples. rewrite feed_average_None. simpl. tauto.
  - intros x xs. destruct xs as [|z xs _] using rev_ind.
    + apply (feed_average_defined _ x []).
    + rewrite app_comm_cons. apply feed_average_defined.
Qed.

(** C9.  Construction cannot fail and checks nothing: whatever [a0] is
    (zero, negative, above one), [EWMA(a0)] is created, stores [a0] as it
    is, no call changes it, and it is the coefficient the updates use. *)
Theorem EWMA_init_stores_any_coefficient :
  forall {num : Type} `{Number num} (a0 : num),
    EWMA_init a0 = {| a := a0; average := None |} /\
    (forall w : World num,
        exists f w', new_EWMA a0 w = Some (f, w') /\
                     heap w' !! f = Some (EWMA_init a0)) /\
    (forall samples : list num, a (feed (EWMA_init a0) samples) = a0) /\
    (forall x1 x2 : num,
        average (feed (EWMA_init a0) [x1; x2]) =
        Some (nadd (nmul a0 x2) (nmul (nsub lit_1 a0) x1))).
Proof.
  intros num N a0. split; [reflexivity|]. split; [|split].
  - intros w. eexists _, _. split; [reflexivity|]. cbn [heap].
    rewrite lookup_app_r by done. by rewrite Nat.sub_diag.
  - intros samples. apply feed_a.
  - reflexivity.
Qed.

(** C10.  Over exact arithmetic a constant input is a fixed point: if the
    stored average is [c], a call with sample [c] leaves it equal to [c],
    for every coefficient. *)
Theorem constant_sample_is_fixed_point :
  forall (self : EWMA R) (alpha c : R),
    a self = alpha ->
    average self = Some c ->
    average (fst (EWMA_call self c)) = Some c.
Proof.
  intros self alpha c Ha Hc. rewrite EWMA_call_average, Hc, Ha.
  f_equal. simpl. lra.
Qed.

Lemma constant_sample_is_fixed_point_witness :
  a {| a := 3 / 10; average := Some 10 |}%R = (3 / 10)%R /\
  average {| a := 3 / 10; average := Some 10 |}%R = Some 10%R /\
  average (fst (EWMA_call {| a := 3 / 10; average := Some 10 |} 10))%R =
  Some 10%R.
Proof.
  split; [reflexivity|]. split; [reflexivity|].
  apply (constant_sample_is_fixed_point _ (3 / 10)%R 10%R); reflexivity.
Defined.

(** ** The relays *)

(** C2, as the code has it.  [filter_all_variable_topics] never raises
    and returns [None].  What it creates is registered with the node and
    nowhere else: per variable one log line, one fresh filter, one
    publisher and one subscriber whose callback refers to that filter and
    that publisher.  The pairs [sub, pub] coming back from [filter_topic]
    are dropped; no collection of bindings is built. *)
Theorem filter_all_variable_topics_returns_None :
  forall {num : Type} `{Number num} (vs : list string) (w : World num),
    exists w',
      filter_all_variable_topics vs w = Some (None, w') /\
      log w' = log w ++ (log_line <$> vs) /\
      heap w' = heap w ++ replicate (length vs) (EWMA_init lit_0_3) /\
      publishers w' = publishers w ++ relay_publishers vs /\
      subscribers w' =
        subscribers w ++
        relay_subscribers (length (heap w)) (length (publishers w)) vs /\
      published w' = published w.
Proof.
  intros num N vs w. exists (with_relays vs w).
  split; [apply filter_all_variable_topics_run|]. repeat split.
Qed.

(** C2, as stated, fails: binding ["air_temperature"] on a fresh node
    creates a binding, and the call does not return it. *)
Lemma filter_all_variable_topics_returns_no_bindings :
  ~ exists (bindings : list (nat * nat)) (w : World R),
      filter_all_variable_topics ["air_temperature"] init_node =
      Some (Some bindings, w).
Proof.
  intros (bindings & w & Hrun).
  rewrite filter_all_variable_topics_run in Hrun. discriminate Hrun.
Qed.

(** C5.  Channel naming: for the variable [V] at any position of the
    input, the loop registers a subscriber on [V/raw] whose callback
    publishes through a publisher registered on [V/measured]. *)
Theorem relay_channel_names :
  forall {num : Type} `{Number num} (vs : list string) (w : World num)
         (i : nat) (V : string),
    vs !! i = Some V ->
    exists w' s p,
      filter_all_variable_topics vs w = Some (None, w') /\
      subscribers w' !! (length (subscribers w) + i) = Some s /\
      sub_topic s = V +:+ "/raw" /\
      publishers w' !! env_pub (sub_callback s) = Some p /\
      pub_topic p = V +:+ "/measured".
Proof.
  intros num N vs w i V HV.
  exists (with_relays vs w),
    (mkSubscriber (V +:+ "/raw") Float64
       (mkEnv (length (heap w) + i) Float64 (length (publishers w) + i))),
    (mkPublisher (V +:+ "/measured") Float64 10).
  split; [apply filter_all_variable_topics_run|]. cbn.
  split; [|split; [reflexivity|split; [|reflexivity]]].
  - rewrite lookup_app_r by lia.
    replace (length (subscribers w) + i - length (subscribers w)) with i by lia.
    by apply relay_subscribers_lookup.
  - rewrite lookup_app_r by lia.
    replace (length (publishers w) + i - length (publishers w)) with i by lia.
    by apply relay_publishers_lookup.
Qed.

Lemma relay_channel_names_witness :
  exists (w' : World R) s p,
    filter_all_variable_topics ["air_temperature"] init_node
      = Some (None, w') /\
    subscribers w' !! (length (subscribers (init_node (num := R))) + 0)
      = Some s /\
    sub_topic s = "air_temperature" +:+ "/raw" /\
    publishers w' !! env_pub (sub_callback s) = Some p /\
    pub_topic p = "air_temperature" +:+ "/measured".
Proof.
  apply (relay_channel_names ["air_temperature"] init_node 0 "air_temperature").
  reflexivity.
Defined.

(** C8.  An empty list of variables: no error, [None] is returned, and
    the world is the one before the call, with no filter, publisher or
    subscriber added and nothing logged or published. *)
Theorem filter_all_variable_topics_nil :
  forall {num : Type} `{Number num} (w : World num),
    filter_all_variable_topics [] w = Some (None, w).
Proof. intros. reflexivity. Qed.

(** C4.  In any state the node reaches, a sample [x] delivered to the
    relay of variable [v] is fed to that relay's filter, and the average
    the filter then holds goes out as a [Float64] on [v/measured].  With
    the coefficient 0.3 of [filter_topic], the samples 10, 20, 20
    delivered to one relay are published as 10, 13 and 15.1. *)
Theorem callback_publishes_new_average :
  forall (vs : list string) (events : list (nat * R)) (i : nat)
         (v : string) (x : R),
    vs !! i = Some v ->
    Forall (fun e => e.1 < length vs) events ->
    (exists w w' self y,
        main vs events init_node = Some (tt, w) /\
        main vs (events ++ [(i, x)]) init_node = Some (tt, w') /\
        heap w !! i = Some self /\
        heap w' = <[i := fst (EWMA_call self x)]> (heap w) /\
        average (fst (EWMA_call self x)) = Some y /\
        published w' =
          published w ++ [(v +:+ "/measured", mkMessage Float64 y)]) /\
    (exists w3,
        main vs [(i, 10%R); (i, 20%R); (i, 20%R)] init_node
          = Some (tt, w3) /\
        published w3 =
          [(v +:+ "/measured", mkMessage Float64 10%R);
           (v +:+ "/measured", mkMessage Float64 13%R);
           (v +:+ "/measured", mkMessage Float64 (151 / 10)%R)]).
Proof.
  intros vs events i v x Hv Hin.
  assert (Hi : i < length vs) by (eapply lookup_lt_Some; eauto).
  split.
  - destruct (main_run vs events Hin) as (out & _ & Hrun).
    pose proof (relay_filters_lookup (length vs) events i Hi) as Hself.
    eexists _, _, _, _. split; [exact Hrun|].
    rewrite main_snoc, Hrun.
    split; [exact (deliver_relay_state vs _ out i v _ x Hv Hself)|].
    split; [exact Hself|]. split; [reflexivity|].
    split; [apply EWMA_call_average|]. reflexivity.
  - unfold main, bind.
    rewrite filter_all_variable_topics_run, with_relays_init.
    cbn [deliver_all]. unfold bind.
    erewrite deliver_relay_state;
      [|exact Hv|by apply lookup_replicate_2].
    erewrite deliver_relay_state;
      [|exact Hv|by apply list_lookup_insert_eq; rewrite length_replicate].
    erewrite deliver_relay_state;
      [|exact Hv|by apply list_lookup_insert_eq;
                    rewrite length_insert, length_replicate].
    eexists. split; [reflexivity|]. cbn.
    repeat f_equal; lra.
Qed.

Lemma callback_publishes_new_average_witness :
  (exists w w' self y,
      main ["air_temperature"] [] init_node = Some (tt, w) /\
      main ["air_temperature"] ([] ++ [(0, 10%R)]) init_node
        = Some (tt, w') /\
      heap w !! 0 = Some self /\
      heap w' = <[0 := fst (EWMA_call self 10%R)]> (heap w) /\
      average (fst (EWMA_call self 10%R)) = Some y /\
      published w' =
        published w ++
        [("air_temperature" +:+ "/measured", mkMessage Float64 y)]) /\
  (exists w3,
      main ["air_temperature"] [(0, 10%R); (0, 20%R); (0, 20%R)] init_node
        = Some (tt, w3) /\
      published w3 =
        [("air_temperature" +:+ "/measured", mkMessage Float64 10%R);
         ("air_temperature" +:+ "/measured", mkMessage Float64 13%R);
         ("air_temperature" +:+ "/measured",
          mkMessage Float64 (151 / 10)%R)]).
Proof.
  apply (callback_publishes_new_average ["air_temperature"] [] 0
           "air_temperature" 10%R).
  - reflexivity.
  - constructor.
Defined.

(** C7.  Every relay gets a filter of its own, created with the
    coefficient 0.3 and no average.  Whatever the node delivers and in
    whatever order, the filter of relay [k] ends in the state its own
    samples alone lead to, and a delivery to another relay leaves it as
    it was. *)
Theorem relay_filters_independent :
  forall {num : Type} `{Number num} (vs : list string)
         (events : list (nat * num)),
    Forall (fun e => e.1 < length vs) events ->
    exists w0 w,
      filter_all_variable_topics vs init_node = Some (None, w0) /\
      main vs events init_node = Some (tt, w) /\
      (forall k, k < length vs ->
         heap w0 !! k = Some (EWMA_init lit_0_3) /\
         (exists s, subscribers w !! k = Some s /\
                    env_f (sub_callback s) = k) /\
         heap w !! k =
           Some (feed (EWMA_init lit_0_3) (samples_of k events))) /\
      (forall i x k, i < length vs -> k <> i ->
         exists w',
           main vs (events ++ [(i, x)]) init_node = Some (tt, w') /\
           heap w' !! k = heap w !! k).
Proof.
  intros num N vs events Hin.
  destruct (main_run vs events Hin) as (out & _ & Hrun).
  eexists _, _. split; [apply filter_all_variable_topics_run|].
  split; [exact Hrun|]. split.
  - intros k Hk. split; [by apply lookup_replicate_2|]. split.
    + destruct (lookup_lt_is_Some_2 vs k Hk) as [v Hv].
      eexists. split; [exact (relay_subscribers_lookup 0 0 vs k v Hv)|].
      reflexivity.
    + by apply relay_filters_lookup.
  - intros i x k Hi Hne.
    assert (Hin' : Forall (fun e => e.1 < length vs) (events ++ [(i, x)])).
    { apply Forall_app. split; [done|]. by repeat constructor. }
    destruct (main_run vs _ Hin') as (out' & _ & Hrun').
    eexists. split; [exact Hrun'|]. cbn [heap relay_state].
    destruct (decide (k < length vs)) as [Hk|Hk].
    + rewrite !relay_filters_lookup by done.
      rewrite samples_of_snoc, decide_False by done. reflexivity.
    + unfold relay_filters. rewrite !list_lookup_fmap.
      rewrite lookup_seq_ge by lia. reflexivity.
Qed.

Lemma relay_filters_independent_witness :
  exists (w0 w : World R),
    filter_all_variable_topics ["A"; "B"] init_node = Some (None, w0) /\
    main ["A"; "B"] [(0, 5%R); (1, 100%R)] init_node = Some (tt, w) /\
    (forall k, k < length ["A"; "B"] ->
       heap w0 !! k = Some (EWMA_init lit_0_3) /\
       (exists s, subscribers w !! k = Some s /\
                  env_f (sub_callback s) = k) /\
       heap w !! k =
         Some (feed (EWMA_init lit_0_3)
                 (samples_of k [(0, 5%R); (1, 100%R)]))) /\
    (forall i x k, i < length ["A"; "B"] -> k <> i ->
       exists w',
         main ["A"; "B"] ([(0, 5%R); (1, 100%R)] ++ [(i, x)]) init_node
           = Some (tt, w') /\
         heap w' !! k = heap w !! k).
Proof.
  apply (relay_filters_independent ["A"; "B"] [(0, 5%R); (1, 100%R)]).
  repeat constructor.
Defined.

(** ** The same code over binary64 *)

(** The end-to-end scenario of C4 evaluated in the arithmetic of a Python
    [float]: the three published values are the doubles 10.0, 13.0 and
    15.1 (the double nearest to 15.1), with no rounding difference. *)
Example scenario_binary64 :
  exists w : World float,
    main ["air_temperature"]
         [(0, 0x1.4p+3%float); (0, 0x1.4p+4%float); (0, 0x1.4p+4%float)]
         init_node = Some (tt, w) /\
    published w =
      [("air_temperature/measured", mkMessage Float64 0x1.4p+3%float);
       ("air_temperature/measured", mkMessage Float64 0x1.ap+3%float);
       ("air_temperature/measured",
        mkMessage Float64 0x1.e333333333333p+3%float)].
Proof. eexists. split; vm_compute; reflexivity. Qed.

(** The fixed point of C10 needs exact arithmetic: in binary64, with the
    coefficient 0.3 and the stored average 0.1 (as doubles), a call with
    the sample 0.1 stores the next double below. *)
Example constant_sample_binary64 :
  average (fst (EWMA_call {| a := lit_0_3;
                             average := Some 0x1.999999999999ap-4%float |}
                          0x1.999999999999ap-4%float)) =
  Some 0x1.9999999999999p-4%float.
Proof. vm_compute. reflexivity. Qed.

(** * Further properties *)

(** ** The filter over exact arithmetic *)

Lemma weighted_tail_snoc (alpha : R) (xs : list R) (z : R) :
  weighted_tail alpha (xs ++ [z]) =
  ((1 - alpha) * weighted_tail alpha xs + alpha * z)%R.
Proof.
  induction xs as [|x xs IH]; simpl; [lra|].
  rewrite IH, length_app, Nat.add_1_r. simpl. lra.
Qed.

Lemma feed_from_average (alpha m : R) (xs : list R) :
  average (feed {| a := alpha; average := Some m |} xs) =
  Some ((1 - alpha) ^ length xs * m + weighted_tail alpha xs)%R.
Proof.
  induction xs as [|z xs IH] using rev_ind; [simpl; f_equal; lra|].
  rewrite feed_snoc, EWMA_call_average, feed_a, IH, weighted_tail_snoc.
  rewrite length_app, Nat.add_1_r. f_equal. simpl. lra.
Qed.

(** X1.  Exponential weights: after [x1 .. xn] the average of a fresh
    filter is [(1-alpha)^(n-1) * x1] plus, for each later sample, the
    sample times [alpha * (1-alpha)^k], where [k] counts the samples
    that came after it. *)
Theorem feed_exponential_weights :
  forall (alpha x1 : R) (xs : list R),
    average (feed (EWMA_init alpha) (x1 :: xs)) =
    Some ((1 - alpha) ^ length xs * x1 + weighted_tail alpha xs)%R.
Proof. intros alpha x1 xs. apply (feed_from_average alpha x1 xs). Qed.

Lemma feed_within_from (alpha lo hi m : R) (xs : list R) :
  (0 <= alpha <= 1)%R ->
  (lo <= m <= hi)%R ->
  Forall (fun x => lo <= x <= hi)%R xs ->
  exists y, average (feed {| a := alpha; average := Some m |} xs) = Some y /\
            (lo <= y <= hi)%R.
Proof.
  intros Ha Hm Hxs. revert m Hm.
  induction Hxs as [|x xs Hx _ IH]; intros m Hm; [by exists m|].
  rewrite feed_cons. apply IH. simpl. split; nra.
Qed.

(** X2.  No overshoot: with a coefficient between 0 and 1, the average
    of a fresh filter stays between any two bounds that hold all the
    samples it was fed. *)
Theorem feed_within_sample_bounds :
  forall (alpha lo hi x1 : R) (xs : list R),
    (0 <= alpha <= 1)%R ->
    Forall (fun x => lo <= x <= hi)%R (x1 :: xs) ->
    exists y, average (feed (EWMA_init alpha) (x1 :: xs)) = Some y /\
              (lo <= y <= hi)%R.
Proof.
  intros alpha lo hi x1 xs Ha Hall.
  apply Forall_cons in Hall as [Hx1 Hxs].
  exact (feed_within_from alpha lo hi x1 xs Ha Hx1 Hxs).
Qed.

Lemma feed_within_sample_bounds_witness :
  exists y, average (feed (EWMA_init (3 / 10)%R) [10; 20; 20]%R) = Some y /\
            (10 <= y <= 20)%R.
Proof.
  apply (feed_within_sample_bounds (3 / 10) 10 20 10 [20; 20])%R.
  - lra.
  - repeat constructor; lra.
Defined.


(** X4.  A constant input is approached geometrically: from the average
    [m], after [n] samples all equal to [c] the distance to [c] is the
    initial one times [(1 - a)^n]. *)
Theorem feed_constant_decay :
  forall (self : EWMA R) (m c : R) (n : nat),
    average self = Some m ->
    average (feed self (replicate n c)) =
    Some (c + (1 - a self) ^ n * (m - c))%R.
Proof.
  intros self m c n. revert self m.
  induction n as [|n IH]; intros self m Hm.
  - simpl. rewrite Hm. f_equal. lra.
  - cbn [replicate]. rewrite feed_cons.
    rewrite (IH _ _ (EWMA_call_average self c)), EWMA_call_a, Hm.
    f_equal. simpl. lra.
Qed.

Lemma feed_constant_decay_witness :
  average (feed {| a := 3 / 10; average := Some 10 |} (replicate 2 20))%R =
  Some (20 + (1 - a {| a := 3 / 10; average := Some 10 |}) ^ 2 * (10 - 20))%R.
Proof.
  apply (feed_constant_decay {| a := 3 / 10; average := Some 10 |}%R).
  reflexivity.
Defined.

Lemma feed_affine_from (alpha k c : R) (xs : list R) :
  forall m : R,
    average (feed {| a := alpha; average := Some (k * m + c)%R |}
               ((fun x => k * x + c)%R <$> xs)) =
    (fun y => k * y + c)%R <$>
      average (feed {| a := alpha; average := Some m |} xs).
Proof.
  induction xs as [|x xs IH]; intros m; [reflexivity|].
  rewrite fmap_cons, !feed_cons.
  change (fst (EWMA_call {| a := alpha; average := Some m |} x))
    with {| a := alpha;
            average := Some (alpha * x + (1 - alpha) * m)%R |}.
  rewrite <- IH. do 2 f_equal. unfold EWMA_call. simpl. do 2 f_equal. lra.
Qed.

(** X5.  Filtering commutes with a change of unit: if every sample is
    mapped by [x -> k * x + c], the average is mapped the same way. *)
Theorem feed_affine :
  forall (alpha k c x1 : R) (xs : list R),
    average (feed (EWMA_init alpha)
               ((fun x => k * x + c)%R <$> (x1 :: xs))) =
    (fun y => k * y + c)%R <$> average (feed (EWMA_init alpha) (x1 :: xs)).
Proof. intros alpha k c x1 xs. apply (feed_affine_from alpha k c xs x1). Qed.

Lemma feed_monotone_from (alpha : R) (xs ys : list R) :
  (0 <= alpha <= 1)%R ->
  Forall2 Rle xs ys ->
  forall m1 m2 : R,
    (m1 <= m2)%R ->
    exists y1 y2,
      average (feed {| a := alpha; average := Some m1 |} xs) = Some y1 /\
      average (feed {| a := alpha; average := Some m2 |} ys) = Some y2 /\
      (y1 <= y2)%R.
Proof.
  intros Ha Hxy. induction Hxy as [|x y xs ys Hle _ IH]; intros m1 m2 Hm.
  - by exists m1, m2.
  - rewrite !feed_cons. apply IH. simpl. nra.
Qed.

(** X6.  Monotone: with a coefficient between 0 and 1, raising samples
    never lowers the average. *)
Theorem feed_monotone :
  forall (alpha x1 y1 : R) (xs ys : list R),
    (0 <= alpha <= 1)%R ->
    Forall2 Rle (x1 :: xs) (y1 :: ys) ->
    exists u v,
      average (feed (EWMA_init alpha) (x1 :: xs)) = Some u /\
      average (feed (EWMA_init alpha) (y1 :: ys)) = Some v /\
      (u <= v)%R.
Proof.
  intros alpha x1 y1 xs ys Ha Hall.
  apply Forall2_cons in Hall as [H1 Hrest].
  exact (feed_monotone_from alpha xs ys Ha Hrest x1 y1 H1).
Qed.

Lemma feed_monotone_witness :
  exists u v,
    average (feed (EWMA_init (3 / 10)%R) [10; 20]%R) = Some u /\
    average (feed (EWMA_init (3 / 10)%R) [10; 30]%R) = Some v /\
    (u <= v)%R.
Proof.
  apply (feed_monotone (3 / 10) 10 10 [20] [30])%R.
  - lra.
  - repeat constructor; lra.
Defined.

(** ** The filter over binary64 *)

Lemma is_nan_Prim2SF (x : float) :
  PrimFloat.is_nan x = true <-> Prim2SF x = S754_nan.
Proof.
  unfold PrimFloat.is_nan. rewrite FloatAxioms.eqb_spec.
  destruct (Prim2SF x) as [s| s| |s m e]; unfold SFeqb; simpl.
  - split; discriminate.
  - destruct s; split; discriminate.
  - split; reflexivity.
  - assert (He : (e ?= e)%Z = Eq) by apply Z.compare_refl.
    assert (Hm : Pos.compare_cont Eq m m = Eq) by apply Pos.compare_refl.
    destruct s; simpl; rewrite He, Hm; split; discriminate.
Qed.

Lemma mul_nan_r (x y : float) :
  Prim2SF y = S754_nan -> Prim2SF (x * y)%float = S754_nan.
Proof.
  intros Hy. rewrite mul_spec, Hy. unfold SF64mul.
  destruct (Prim2SF x); reflexivity.
Qed.

Lemma add_nan_l (x y : float) :
  Prim2SF x = S754_nan -> Prim2SF (x + y)%float = S754_nan.
Proof. intros Hx. rewrite add_spec, Hx. reflexivity. Qed.

Lemma add_nan_r (x y : float) :
  Prim2SF y = S754_nan -> Prim2SF (x + y)%float = S754_nan.
Proof.
  intros Hy. rewrite add_spec, Hy. unfold SF64add.
  destruct (Prim2SF x); reflexivity.
Qed.

(** A call with a NaN sample stores a NaN. *)
Lemma EWMA_call_nan_sample (self : EWMA float) (x : float) :
  PrimFloat.is_nan x = true ->
  exists y, average (fst (EWMA_call self x)) = Some y /\
            PrimFloat.is_nan y = true.
Proof.
  intros Hx. rewrite EWMA_call_average. eexists. split; [reflexivity|].
  destruct (average self) as [avg|]; [|exact Hx].
  apply is_nan_Prim2SF, add_nan_l, mul_nan_r, is_nan_Prim2SF, Hx.
Qed.

(** A call on a filter whose average is a NaN stores a NaN again. *)
Lemma EWMA_call_nan_average (self : EWMA float) (m x : float) :
  average self = Some m ->
  PrimFloat.is_nan m = true ->
  exists y, average (fst (EWMA_call self x)) = Some y /\
            PrimFloat.is_nan y = true.
Proof.
  intros Hm Hnan. rewrite EWMA_call_average, Hm.
  eexists. split; [reflexivity|].
  apply is_nan_Prim2SF, add_nan_r, mul_nan_r, is_nan_Prim2SF, Hnan.
Qed.

(** X7.  No guard against NaN: in binary64, once a NaN sample was fed to
    a filter its average is a NaN and stays one, whatever the
    coefficient and whatever samples come before or after. *)
Theorem feed_nan_sticks :
  forall (a0 x : float) (before after : list float),
    PrimFloat.is_nan x = true ->
    exists y,
      average (feed (EWMA_init a0) (before ++ x :: after)) = Some y /\
      PrimFloat.is_nan y = true.
Proof.
  intros a0 x before after Hx.
  induction after as [|z after IH] using rev_ind.
  - rewrite feed_snoc. by apply EWMA_call_nan_sample.
  - destruct IH as (m & Hm & Hnan).
    rewrite app_comm_cons, app_assoc, feed_snoc.
    exact (EWMA_call_nan_average _ m z Hm Hnan).
Qed.

Lemma feed_nan_sticks_witness :
  exists y,
    average (feed (EWMA_init lit_0_3)
               ([0x1.4p+3%float] ++ PrimFloat.nan :: [0x1.4p+4%float]))
      = Some y /\
    PrimFloat.is_nan y = true.
Proof.
  apply (feed_nan_sticks lit_0_3 PrimFloat.nan
           [0x1.4p+3%float] [0x1.4p+4%float]).
  reflexivity.
Defined.

(** ** Channel names *)

Lemma list_ascii_of_string_app (s t : string) :
  String.list_ascii_of_string (s +:+ t) =
  String.list_ascii_of_string s ++ String.list_ascii_of_string t.
Proof. induction s as [|c s IH]; simpl; [reflexivity|]. by rewrite IH. Qed.

Lemma append_suffix_inj (suffix s t : string) :
  s +:+ suffix = t +:+ suffix -> s = t.
Proof.
  intros Heq. apply (f_equal String.list_ascii_of_string) in Heq.
  rewrite !list_ascii_of_string_app in Heq. apply app_inv_tail in Heq.
  rewrite <- (String.string_of_list_ascii_of_string s),
          <- (String.string_of_list_ascii_of_string t).
  by rewrite Heq.
Qed.

Lemma measured_is_not_raw (s t : string) :
  s +:+ "/measured" <> t +:+ "/raw".
Proof.
  intros Heq. apply (f_equal String.list_ascii_of_string) in Heq.
  rewrite !list_ascii_of_string_app in Heq.
  apply (f_equal (fun l => head (rev l))) in Heq.
  rewrite !rev_app_distr in Heq. discriminate Heq.
Qed.

Section ChannelFacts.
Context {num : Type} `{Number num}.

Lemma relay_subscribers_topics nf np vs :
  sub_topic <$> relay_subscribers nf np vs = (fun v => v +:+ "/raw") <$> vs.
Proof.
  unfold relay_subscribers. rewrite fmap_imap.
  rewrite <- (imap_const (fun v : string => v +:+ "/raw")).
  apply imap_ext. reflexivity.
Qed.

Lemma relay_publishers_topics vs :
  pub_topic <$> relay_publishers vs = (fun v => v +:+ "/measured") <$> vs.
Proof.
  unfold relay_publishers. rewrite <- list_fmap_compose. reflexivity.
Qed.

(** X8.  No feedback: on a node set up by the loop, no publisher is on a
    channel that a subscriber listens to, so no relay can ever be fed by
    the output of a relay, for any variable names. *)
Theorem relays_never_feed_back :
  forall (vs : list string),
    exists w : World num,
      filter_all_variable_topics vs init_node = Some (None, w) /\
      forall s p,
        s ∈ subscribers w -> p ∈ publishers w ->
        pub_topic p <> sub_topic s.
Proof.
  intros vs. exists (with_relays vs init_node).
  split; [apply filter_all_variable_topics_run|].
  intros s p Hs Hp. cbn in Hs, Hp.
  apply (list_elem_of_fmap_2 sub_topic) in Hs.
  apply (list_elem_of_fmap_2 pub_topic) in Hp.
  rewrite relay_subscribers_topics in Hs.
  rewrite relay_publishers_topics in Hp.
  apply list_elem_of_fmap in Hs as (v & -> & _).
  apply list_elem_of_fmap in Hp as (u & -> & _).
  apply measured_is_not_raw.
Qed.

(** X9.  Different variables never share a channel: if the list of
    variables has no repetition, the subscribers are on pairwise
    different channels and so are the publishers. *)
Theorem relay_channels_distinct :
  forall (vs : list string),
    NoDup vs ->
    exists w : World num,
      filter_all_variable_topics vs init_node = Some (None, w) /\
      NoDup (sub_topic <$> subscribers w) /\
      NoDup (pub_topic <$> publishers w).
Proof.
  intros vs Hnd. exists (with_relays vs init_node).
  split; [apply filter_all_variable_topics_run|]. cbn.
  rewrite relay_subscribers_topics, relay_publishers_topics.
  split; (apply NoDup_fmap_2_strong; [|done]);
    intros x y _ _ Heq; exact (append_suffix_inj _ x y Heq).
Qed.

(** X10.  Setting up in two batches is setting up at once: the loop over
    [vs1 ++ vs2] leaves the world the loop over [vs1] followed by the
    loop over [vs2] leaves, from any world. *)
Theorem filter_all_variable_topics_app :
  forall (vs1 vs2 : list string) (w : World num),
    filter_all_variable_topics (vs1 ++ vs2) w =
    bind (filter_all_variable_topics vs1)
         (fun _ => filter_all_variable_topics vs2) w.
Proof.
  intros vs1 vs2. induction vs1 as [|v vs1 IH]; intros w; [reflexivity|].
  cbn [app filter_all_variable_topics]. unfold bind.
  rewrite filter_topic_run. rewrite IH. reflexivity.
Qed.

End ChannelFacts.

Lemma relay_channels_distinct_witness :
  exists w : World R,
    filter_all_variable_topics ["A"; "B"] init_node = Some (None, w) /\
    NoDup (sub_topic <$> subscribers w) /\
    NoDup (pub_topic <$> publishers w).
Proof.
  apply (relay_channels_distinct ["A"; "B"]).
  apply NoDup_cons. split.
  - intros Hin. apply list_elem_of_singleton in Hin. discriminate Hin.
  - apply NoDup_singleton.
Defined.

(** ** What a run publishes *)

Section RunFacts.
Context {num : Type} `{Number num}.

Lemma main_published (vs : list string) (events : list (nat * num)) :
  Forall (fun e => e.1 < length vs) events ->
  exists w,
    main vs events init_node = Some (tt, w) /\
    length (published w) = length events /\
    forall j i x v,
      events !! j = Some (i, x) ->
      vs !! i = Some v ->
      exists y,
        published w !! j = Some (v +:+ "/measured", mkMessage Float64 y) /\
        average (feed (EWMA_init lit_0_3)
                   (samples_of i (take (S j) events))) = Some y.
Proof.
  induction events as [|[i0 x0] events IH] using rev_ind; intros Hin.
  - destruct (main_run vs [] Hin) as (out & Hlen & Hrun).
    eexists. split; [exact Hrun|]. split; [exact Hlen|].
    intros j i x v Hj. discriminate Hj.
  - apply Forall_app in Hin as [Hin Hlast].
    apply Forall_cons in Hlast as [Hlast _]. cbn [fst] in Hlast.
    destruct (IH Hin) as (w & Hmain & Hlen & Hout).
    destruct (main_run vs events Hin) as (out & _ & Hrun).
    rewrite Hrun in Hmain. injection Hmain as <-.
    cbn [published relay_state] in Hlen, Hout.
    destruct (lookup_lt_is_Some_2 vs i0 Hlast) as [v0 Hv0].
    pose proof (relay_filters_lookup (length vs) events i0 Hlast) as Hself.
    eexists. split.
    { rewrite main_snoc, Hrun.
      exact (deliver_relay_state vs _ out i0 v0 _ x0 Hv0 Hself). }
    cbn [published relay_state]. split.
    { rewrite !length_app, Hlen. reflexivity. }
    intros j i x v Hj Hv.
    destruct (decide (j < length events)) as [Hlt|Hge].
    + rewrite lookup_app_l in Hj by done.
      destruct (Hout j i x v Hj Hv) as (y & Hy & Havg).
      exists y. split; [by rewrite lookup_app_l by lia|].
      by rewrite take_app_le by lia.
    + assert (j = length events) as ->.
      { apply lookup_lt_Some in Hj. rewrite length_app in Hj. simpl in Hj.
        lia. }
      rewrite list_lookup_middle in Hj by done.
      injection Hj as <- <-. rewrite Hv0 in Hv. injection Hv as <-.
      eexists. split; [by apply list_lookup_middle|].
      rewrite take_ge by (rewrite length_app; simpl; lia).
      rewrite samples_of_snoc, decide_True by done.
      rewrite feed_snoc. apply EWMA_call_average.
Qed.

(** X11.  One message out per message in, in order: after any run the
    node has published as many messages as were delivered, and the
    [j]-th one is, on the measured channel of the variable the [j]-th
    delivery was for, the average of that variable's samples up to and
    including the [j]-th delivery. *)
Theorem run_publishes_running_averages :
  forall (vs : list string) (events : list (nat * num)),
    Forall (fun e => e.1 < length vs) events ->
    exists w,
      main vs events init_node = Some (tt, w) /\
      length (published w) = length events /\
      forall j i x v,
        events !! j = Some (i, x) ->
        vs !! i = Some v ->
        exists y,
          published w !! j = Some (v +:+ "/measured", mkMessage Float64 y) /\
          average (feed (EWMA_init lit_0_3)
                     (samples_of i (take (S j) events))) = Some y.
Proof. intros vs events. apply main_published. Qed.

End RunFacts.

Lemma run_publishes_running_averages_witness :
  exists w : World R,
    main ["A"; "B"] [(0, 5%R); (1, 100%R)] init_node = Some (tt, w) /\
    length (published w) = length [(0, 5%R); (1, 100%R)] /\
    forall j i x v,
      [(0, 5%R); (1, 100%R)] !! j = Some (i, x) ->
      ["A"; "B"] !! i = Some v ->
      exists y,
        published w !! j = Some (v +:+ "/measured", mkMessage Float64 y) /\
        average (feed (EWMA_init lit_0_3)
                   (samples_of i (take (S j) [(0, 5%R); (1, 100%R)])))
          = Some y.
Proof.
  apply (run_publishes_running_averages ["A"; "B"] [(0, 5%R); (1, 100%R)]).
  repeat constructor.
Defined.

Lemma samples_of_bounded (lo hi : R) (i : nat) (events : list (nat * R)) :
  Forall (fun e => lo <= e.2 <= hi)%R events ->
  Forall (fun x => lo <= x <= hi)%R (samples_of i events).
Proof.
  intros Hall. unfold samples_of. apply Forall_fmap.
  apply Forall_forall. intros e He.
  apply list_elem_of_filter in He as [_ He].
  exact (proj1 (Forall_forall _ _) Hall e He).
Qed.

(** X12.  The output stays in the range of the input: if every sample
    delivered during a run lies between [lo] and [hi], so does every
    value the node publishes. *)
Theorem published_within_sample_bounds :
  forall (vs : list string) (events : list (nat * R)) (lo hi : R),
    Forall (fun e => e.1 < length vs) events ->
    Forall (fun e => lo <= e.2 <= hi)%R events ->
    exists w,
      main vs events init_node = Some (tt, w) /\
      Forall (fun m => lo <= data m.2 <= hi)%R (published w).
Proof.
  intros vs events lo hi Hin Hall.
  destruct (main_published vs events Hin) as (w & Hmain & Hlen & Hout).
  exists w. split; [exact Hmain|].
  apply Forall_lookup. intros j [t m] Hj.
  assert (Hlt : j < length events).
  { rewrite <- Hlen. eapply lookup_lt_Some; eauto. }
  destruct (lookup_lt_is_Some_2 events j Hlt) as [[i x] Hev].
  assert (Hi : i < length vs).
  { exact (proj1 (Forall_lookup _ _) Hin j (i, x) Hev). }
  destruct (lookup_lt_is_Some_2 vs i Hi) as [v Hv].
  destruct (Hout j i x v Hev Hv) as (y & Hy & Havg).
  rewrite Hy in Hj. injection Hj as <- <-. cbn [snd data].
  pose proof (samples_of_bounded lo hi i (take (S j) events)
                (Forall_take _ _ _ Hall)) as Hb.
  destruct (samples_of i (take (S j) events)) as [|x1 xs]; [discriminate|].
  apply Forall_cons in Hb as [Hx1 Hxs].
  destruct (feed_within_from (3 / 10) lo hi x1 xs) as (y' & Hy' & Hrange);
    [lra | done | done |].
  change (feed (EWMA_init lit_0_3) (x1 :: xs))
    with (feed {| a := (3 / 10)%R; average := Some x1 |} xs) in Havg.
  rewrite Hy' in Havg. by injection Havg as <-.
Qed.

Lemma published_within_sample_bounds_witness :
  exists w,
    main ["A"; "B"] [(0, 5%R); (1, 100%R)] init_node = Some (tt, w) /\
    Forall (fun m => 5 <= data m.2 <= 100)%R (published w).
Proof.
  apply (published_within_sample_bounds ["A"; "B"] [(0, 5%R); (1, 100%R)]).
  - repeat constructor.
  - repeat constructor; simpl; lra.
Defined.

(** ** The script *)

Section ScriptFacts.
Context {num : Type} `{Number num}.
Context {EnvVar group : Type} `{EqDecision group}.
Variable groups : EnvVar -> list group.
Variable str : EnvVar -> string.
Variable GROUP_ENVIRONMENT : group.

(** X13.  The script relays the environment variables of the catalogue
    and nothing else: every catalogued variable that carries the
    environment group has a subscriber on its raw channel and a publisher
    on its measured channel, and every subscriber and publisher of the
    node belongs to such a variable.  Deliveries do not change that. *)
Theorem script_relays_environment_variables :
  forall (items : list EnvVar) (events : list (nat * num)),
    Forall (fun e =>
              e.1 < length (ENVIRONMENT_VARIABLES groups GROUP_ENVIRONMENT
                              items)) events ->
    exists w,
      script groups str GROUP_ENVIRONMENT items events = Some (tt, w) /\
      (forall var,
          var ∈ items -> GROUP_ENVIRONMENT ∈ groups var ->
          str var +:+ "/raw" ∈ sub_topic <$> subscribers w /\
          str var +:+ "/measured" ∈ pub_topic <$> publishers w) /\
      (forall s,
          s ∈ subscribers w ->
          exists var, var ∈ items /\ GROUP_ENVIRONMENT ∈ groups var /\
                      sub_topic s = str var +:+ "/raw") /\
      (forall p,
          p ∈ publishers w ->
          exists var, var ∈ items /\ GROUP_ENVIRONMENT ∈ groups var /\
                      pub_topic p = str var +:+ "/measured").
Proof.
  intros items events Hin. unfold script.
  set (vars := ENVIRONMENT_VARIABLES groups GROUP_ENVIRONMENT items) in *.
  assert (Hin' : Forall (fun e => e.1 < length (str <$> vars)) events)
    by (by rewrite length_fmap).
  destruct (main_run (str <$> vars) events Hin') as (out & _ & Hrun).
  eexists. split; [exact Hrun|]. cbn [subscribers publishers relay_state].
  rewrite relay_subscribers_topics, relay_publishers_topics.
  assert (Hvars : forall var,
             var ∈ vars <-> GROUP_ENVIRONMENT ∈ groups var /\ var ∈ items)
    by (intros var; unfold vars, ENVIRONMENT_VARIABLES;
        exact (list_elem_of_filter
                 (fun v => GROUP_ENVIRONMENT ∈ groups v) items var)).
  split; [|split].
  - intros var Hitem Hgroup.
    assert (Hv : str var ∈ str <$> vars)
      by (apply list_elem_of_fmap_2, Hvars; done).
    split.
    + exact (list_elem_of_fmap_2 (fun v => v +:+ "/raw") _ _ Hv).
    + exact (list_elem_of_fmap_2 (fun v => v +:+ "/measured") _ _ Hv).
  - intros s Hs. apply (list_elem_of_fmap_2 sub_topic) in Hs.
    rewrite relay_subscribers_topics in Hs.
    apply list_elem_of_fmap in Hs as (v & -> & Hv).
    apply list_elem_of_fmap in Hv as (var & -> & Hvar).
    apply Hvars in Hvar as [Hgroup Hitem]. by exists var.
  - intros p Hp. apply (list_elem_of_fmap_2 pub_topic) in Hp.
    rewrite relay_publishers_topics in Hp.
    apply list_elem_of_fmap in Hp as (v & -> & Hv).
    apply list_elem_of_fmap in Hv as (var & -> & Hvar).
    apply Hvars in Hvar as [Hgroup Hitem]. by exists var.
Qed.

End ScriptFacts.

Lemma script_relays_environment_variables_witness :
  exists w : World R,
    script snd fst "environment"
      [("air_temperature", ["environment"]); ("recipe_start", ["recipe"])]
      [(0, 10%R)] = Some (tt, w) /\
    (forall var,
        var ∈ [("air_temperature", ["environment"]);
               ("recipe_start", ["recipe"])] ->
        "environment" ∈ var.2 ->
        var.1 +:+ "/raw" ∈ sub_topic <$> subscribers w /\
        var.1 +:+ "/measured" ∈ pub_topic <$> publishers w) /\
    (forall s,
        s ∈ subscribers w ->
        exists var,
          var ∈ [("air_temperature", ["environment"]);
                 ("recipe_start", ["recipe"])] /\
          "environment" ∈ var.2 /\ sub_topic s = var.1 +:+ "/raw") /\
    (forall p,
        p ∈ publishers w ->
        exists var,
          var ∈ [("air_temperature", ["environment"]);
                 ("recipe_start", ["recipe"])] /\
          "environment" ∈ var.2 /\ pub_topic p = var.1 +:+ "/measured").
Proof.
  apply (script_relays_environment_variables
           (snd : string * list string -> list string) fst "environment"
           [("air_temperature", ["environment"]); ("recipe_start", ["recipe"])]
           [(0, 10%R)]).
  repeat constructor.
Defined.

(** ** What a run leaves alone *)

(** X14.  Deliveries only move averages and add to what was published:
    after any run the log, the publishers and the subscribers are those
    the set-up left, there is still one filter per variable, and every
    filter still has the coefficient 0.3. *)
Theorem run_keeps_setup :
  forall {num : Type} `{Number num} (vs : list string)
         (events : list (nat * num)),
    Forall (fun e => e.1 < length vs) events ->
    exists w0 w,
      filter_all_variable_topics vs init_node = Some (None, w0) /\
      main vs events init_node = Some (tt, w) /\
      log w = log w0 /\
      publishers w = publishers w0 /\
      subscribers w = subscribers w0 /\
      length (heap w) = length vs /\
      Forall (fun f => a f = lit_0_3) (heap w).
Proof.
  intros num N vs events Hin.
  destruct (main_run vs events Hin) as (out & _ & Hrun).
  eexists _, _. split; [apply filter_all_variable_topics_run|].
  split; [exact Hrun|]. cbn.
  split; [reflexivity|]. split; [reflexivity|]. split; [reflexivity|].
  unfold relay_filters. split; [by rewrite length_fmap, length_seq|].
  apply Forall_fmap, Forall_forall. intros k _. apply feed_a.
Qed.

Lemma run_keeps_setup_witness :
  exists (w0 w : World R),
    filter_all_variable_topics ["A"; "B"] init_node = Some (None, w0) /\
    main ["A"; "B"] [(0, 5%R); (1, 100%R)] init_node = Some (tt, w) /\
    log w = log w0 /\
    publishers w = publishers w0 /\
    subscribers w = subscribers w0 /\
    length (heap w) = length ["A"; "B"] /\
    Forall (fun f => a f = lit_0_3) (heap w).
Proof.
  apply (run_keeps_setup ["A"; "B"] [(0, 5%R); (1, 100%R)]).
  repeat constructor.
Defined.
